(** * Verification of the WINDOW_UPDATE frame codec of xitca-http's h2 layer

    Shallow embedding of [src/http/src/h2/proto/window_update.rs]:
    the [WindowUpdate] struct, [WindowUpdate::new], the accessors,
    [WindowUpdate::load] and [WindowUpdate::encode].

    Octets are [Byte.byte]; a [u32] is a [Z] whose range is stated where it
    matters; the output buffer ([BufMut]) is the list of octets written so far,
    threaded through explicitly.  A Rust panic ([todo!()], out-of-range slice
    indexing) is an outcome of its own, distinct from [Err]. *)

From Stdlib Require Import ZArith List Lia Bool.
From Stdlib Require Strings.Byte.
Import ListNotations.
Local Open Scope Z_scope.

(** ** Octets and [u32] values *)
Module Octets.

Definition val (b : Byte.byte) : Z := Z.of_N (Byte.to_N b).

(** [x as u8]: truncation to the low 8 bits. *)
Definition of_Z (z : Z) : Byte.byte :=
  match Byte.of_N (Z.to_N (z mod 256)) with
  | Some b => b
  | None => Byte.x00
  end.

(** [!x] on a [u32], wrap-around written out. *)
Definition u32_not (x : Z) : Z := Z.lxor x (2 ^ 32 - 1).

(** Arithmetic big-endian reading of four octets (the spec's words). *)
Definition be32 (b0 b1 b2 b3 : Byte.byte) : Z :=
  val b0 * 2 ^ 24 + val b1 * 2 ^ 16 + val b2 * 2 ^ 8 + val b3.

End Octets.

(** ** [BufMut] and the [unpack_octets_4!] macro *)
Module Buf.
Import Octets.

(** The low [n] octets of [x], most significant first ([to_be_bytes]). *)
Fixpoint be_bytes (x : Z) (n : nat) : list Byte.byte :=
  match n with
  | O => []
  | S m => of_Z (Z.land (Z.shiftr x (8 * Z.of_nat m)) 255) :: be_bytes x m
  end.

Definition put_u8 (b : Byte.byte) (dst : list Byte.byte) : list Byte.byte :=
  dst ++ [b].

Definition put_uint (x : Z) (nbytes : nat) (dst : list Byte.byte) : list Byte.byte :=
  dst ++ be_bytes x nbytes.

Definition put_u32 (x : Z) (dst : list Byte.byte) : list Byte.byte :=
  dst ++ be_bytes x 4.

(** Modelled from the spec: [unpack_octets_4!] (defined in the parent
    [proto] module, not shown) reads four octets at [offset] as a 32-bit
    big-endian integer, [buf[offset + i] as u32] shifted and or-ed; an
    index past the end of the slice panics ([None]). *)
Definition unpack_octets_4 (buf : list Byte.byte) (offset : nat) : option Z :=
  match nth_error buf offset, nth_error buf (offset + 1),
        nth_error buf (offset + 2), nth_error buf (offset + 3) with
  | Some a, Some b, Some c, Some d =>
      Some (Z.lor (Z.lor (Z.lor (Z.shiftl (val a) 24) (Z.shiftl (val b) 16))
                         (Z.shiftl (val c) 8))
                  (Z.shiftl (val d) 0))
  | _, _, _, _ => None
  end.

End Buf.

(** ** Frame head, modelled from the spec

    [head.rs] and [stream_id.rs] are not part of the shown sources; the
    functions below follow the spec's wire format: a 9-octet header made of
    a 24-bit length, an 8-bit type, an 8-bit flags octet, and one reserved
    bit followed by a 31-bit stream id. *)
Module Head.
Import Octets Buf.

Inductive Kind :=
| Data | Headers | Priority | Reset | Settings | PushPromise
| Ping | GoAway | WindowUpdate | Continuation | Unknown.

(** Modelled from the spec: [Kind as u8], the frame-type codes. *)
Definition kind_to_u8 (k : Kind) : Z :=
  match k with
  | Data => 0 | Headers => 1 | Priority => 2 | Reset => 3 | Settings => 4
  | PushPromise => 5 | Ping => 6 | GoAway => 7 | WindowUpdate => 8
  | Continuation => 9 | Unknown => 10
  end.

(** Modelled from the spec: [Kind::new], an unknown type code decodes to
    [Unknown] rather than failing. *)
Definition kind_new (b : Byte.byte) : Kind :=
  match val b with
  | 0 => Data | 1 => Headers | 2 => Priority | 3 => Reset | 4 => Settings
  | 5 => PushPromise | 6 => Ping | 7 => GoAway | 8 => WindowUpdate
  | 9 => Continuation | _ => Unknown
  end.

(** [StreamId] is a [u32] below [2^31]; the reserved bit is masked on read. *)
Definition STREAM_ID_MASK : Z := Z.shiftl 1 31.

(** Modelled from the spec: [StreamId::parse], the reserved high bit is
    cleared and never interpreted. *)
Definition stream_id_parse (buf : list Byte.byte) : option Z :=
  match unpack_octets_4 buf 0 with
  | Some v => Some (Z.land v (u32_not STREAM_ID_MASK))
  | None => None
  end.

Record Head := mkHead { kind : Kind; flag : Byte.byte; stream_id : Z }.

Definition new (k : Kind) (flag : Byte.byte) (stream_id : Z) : Head :=
  mkHead k flag stream_id.

(** Modelled from the spec: [Head::encode(payload_len, dst)]. *)
Definition encode (h : Head) (payload_len : Z) (dst : list Byte.byte) : list Byte.byte :=
  put_u32 (stream_id h)
    (put_u8 (flag h) (put_u8 (of_Z (kind_to_u8 (kind h))) (put_uint payload_len 3 dst))).

(** Modelled from the spec: [Head::parse(header)] on the 9 header octets;
    [None] when the slice is too short (indexing panics). *)
Definition parse (header : list Byte.byte) : option Head :=
  match nth_error header 3, nth_error header 4, stream_id_parse (skipn 5 header) with
  | Some k, Some f, Some sid => Some (mkHead (kind_new k) f sid)
  | _, _, _ => None
  end.

(** Modelled from the spec: splitting a byte stream into a frame head and
    its payload of the declared 24-bit length; [None] means more bytes are
    needed. *)
Definition split_frame (bs : list Byte.byte) : option (Head * list Byte.byte) :=
  match bs with
  | l0 :: l1 :: l2 :: _ =>
      let len := Z.to_nat (val l0 * 2 ^ 16 + val l1 * 2 ^ 8 + val l2) in
      if (9 + len <=? length bs)%nat then
        match parse (firstn 9 bs) with
        | Some h => Some (h, firstn len (skipn 9 bs))
        | None => None
        end
      else None
  | _ => None
  end.

End Head.

(** ** [window_update.rs] *)
Module WU.
Import Octets Buf.

(** Results of a Rust function that may also panic ([todo!()]). *)
Inductive Outcome (A E : Type) :=
| Ok (a : A)
| Err (e : E)
| Panic.
Arguments Ok {A E} a.
Arguments Err {A E} e.
Arguments Panic {A E}.

(** The error variants named in [load] (in its commented-out returns). *)
Inductive Error := BadFrameSize | InvalidWindowUpdateValue.

Definition SIZE_INCREMENT_MASK : Z := Z.shiftl 1 31.

Record WindowUpdate := mkWindowUpdate { stream_id : Z; size_increment : Z }.

Definition new (stream_id size_increment : Z) : WindowUpdate :=
  mkWindowUpdate stream_id size_increment.

(** [WindowUpdate::load]: both guards are [todo!()] in the source, so they
    panic. *)
Definition load (head : Head.Head) (payload : list Byte.byte)
  : Outcome WindowUpdate Error :=
  if negb (length payload =? 4)%nat then Panic
  else
    match unpack_octets_4 payload 0 with
    | None => Panic
    | Some v =>
        let size_increment := Z.land v (u32_not SIZE_INCREMENT_MASK) in
        if size_increment =? 0 then Panic
        else Ok (mkWindowUpdate (Head.stream_id head) size_increment)
    end.

(** [WindowUpdate::encode] (the [trace!] call has no effect on [dst]). *)
Definition encode (w : WindowUpdate) (dst : list Byte.byte) : list Byte.byte :=
  let head := Head.new Head.WindowUpdate Byte.x00 (stream_id w) in
  put_u32 (size_increment w) (Head.encode head 4 dst).

(** Decoding a WINDOW_UPDATE frame from a byte stream: split off the head,
    then [load]. *)
Definition decode (bs : list Byte.byte) : option (Outcome WindowUpdate Error) :=
  match Head.split_frame bs with
  | Some (h, payload) => Some (load h payload)
  | None => None
  end.

End WU.

(** ** Spec vocabulary for the statements *)
Module SpecTerms.
Import Octets.

(** The first octet of a payload with its top bit (bit 31 of the
    big-endian word) toggled. *)
Definition flip_reserved (b : Byte.byte) : Byte.byte := of_Z (Z.lxor (val b) 128).

(** A payload with bit 31 of its big-endian word cleared. *)
Definition clear_reserved (p : list Byte.byte) : list Byte.byte :=
  match p with
  | b0 :: r => of_Z (Z.land (val b0) 127) :: r
  | [] => []
  end.

End SpecTerms.

(** ** Arithmetic facts about the embedding *)
Module Facts.
Import Octets Buf.

Lemma val_range b : 0 <= val b < 256.
Proof.
  unfold val. pose proof (Byte.to_N_bounded b). lia.
Qed.

Lemma val_of_Z z : val (of_Z z) = z mod 256.
Proof.
  unfold of_Z, val.
  pose proof (Z.mod_pos_bound z 256 ltac:(lia)) as Hb.
  destruct (Byte.of_N (Z.to_N (z mod 256))) as [b|] eqn:E.
  - apply Byte.to_of_N in E. rewrite E. lia.
  - apply Byte.of_N_None_iff in E. lia.
Qed.

Lemma of_Z_val b : of_Z (val b) = b.
Proof.
  unfold of_Z, val.
  pose proof (Byte.to_N_bounded b).
  rewrite Z.mod_small by lia. rewrite N2Z.id, Byte.of_to_N. reflexivity.
Qed.

Lemma val_inj b1 b2 : val b1 = val b2 -> b1 = b2.
Proof.
  intros E. rewrite <- (of_Z_val b1), <- (of_Z_val b2), E. reflexivity.
Qed.

(** Or-ing a value shifted left by [k] with one below [2^k] is addition. *)
Lemma lor_shiftl_small a b k :
  0 <= k -> 0 <= b < 2 ^ k -> Z.lor (Z.shiftl a k) b = Z.shiftl a k + b.
Proof.
  intros Hk Hb.
  assert (Hland : Z.land (Z.shiftl a k) b = 0).
  { apply Z.bits_inj'. intros n Hn.
    rewrite Z.land_spec, Z.shiftl_spec, Z.bits_0 by lia.
    destruct (Z.lt_ge_cases n k).
    - rewrite Z.testbit_neg_r by lia. reflexivity.
    - rewrite <- (Z.mod_small b (2 ^ k)) by lia.
      rewrite Z.mod_pow2_bits_high by lia. apply andb_false_r. }
  rewrite <- Z.lxor_lor by exact Hland.
  symmetry. apply Z.add_nocarry_lxor. exact Hland.
Qed.

Lemma lor_mul_small c b k :
  0 <= k -> 0 <= b < 2 ^ k -> Z.lor (c * 2 ^ k) b = c * 2 ^ k + b.
Proof.
  intros Hk Hb. rewrite <- Z.shiftl_mul_pow2 by exact Hk.
  apply lor_shiftl_small; assumption.
Qed.

Lemma unpack_octets_4_be32 b0 b1 b2 b3 :
  unpack_octets_4 [b0; b1; b2; b3] 0 = Some (be32 b0 b1 b2 b3).
Proof.
  unfold unpack_octets_4, be32; simpl nth_error; cbv iota beta.
  pose proof (val_range b0); pose proof (val_range b1);
  pose proof (val_range b2); pose proof (val_range b3).
  rewrite !Z.shiftl_mul_pow2 by lia.
  rewrite (lor_mul_small (val b0) (val b1 * 2 ^ 16) 24) by lia.
  replace (val b0 * 2 ^ 24 + val b1 * 2 ^ 16)
    with ((val b0 * 2 ^ 8 + val b1) * 2 ^ 16) by lia.
  rewrite (lor_mul_small _ (val b2 * 2 ^ 8) 16) by lia.
  replace ((val b0 * 2 ^ 8 + val b1) * 2 ^ 16 + val b2 * 2 ^ 8)
    with ((val b0 * 2 ^ 16 + val b1 * 2 ^ 8 + val b2) * 2 ^ 8) by lia.
  rewrite (lor_mul_small _ (val b3 * 2 ^ 0) 8) by lia.
  f_equal. lia.
Qed.

Lemma u32_not_mask : u32_not (Z.shiftl 1 31) = Z.ones 31.
Proof. reflexivity. Qed.

Lemma land_not_mask v :
  Z.land v (u32_not (Z.shiftl 1 31)) = v mod 2 ^ 31.
Proof. rewrite u32_not_mask. apply Z.land_ones. lia. Qed.

Lemma val_byte_at x k :
  0 <= k -> val (of_Z (Z.land (Z.shiftr x k) 255)) = (x / 2 ^ k) mod 256.
Proof.
  intros Hk. rewrite val_of_Z.
  change 255 with (Z.ones 8). rewrite Z.land_ones, Z.shiftr_div_pow2 by lia.
  change (2 ^ 8) with 256. apply Z.mod_mod. lia.
Qed.

Lemma be_bytes_4 x :
  be_bytes x 4 =
  [of_Z (Z.land (Z.shiftr x 24) 255); of_Z (Z.land (Z.shiftr x 16) 255);
   of_Z (Z.land (Z.shiftr x 8) 255); of_Z (Z.land (Z.shiftr x 0) 255)].
Proof. reflexivity. Qed.

(** Writing a [u32] big-endian and reading it back gives it unchanged. *)
Lemma be32_be_bytes x :
  0 <= x < 2 ^ 32 ->
  be32 (of_Z (Z.land (Z.shiftr x 24) 255)) (of_Z (Z.land (Z.shiftr x 16) 255))
       (of_Z (Z.land (Z.shiftr x 8) 255)) (of_Z (Z.land (Z.shiftr x 0) 255)) = x.
Proof.
  intros Hx. unfold be32. rewrite !val_byte_at by lia.
  change (2 ^ 24) with 16777216 in *. change (2 ^ 16) with 65536.
  change (2 ^ 8) with 256. change (2 ^ 0) with 1. change (2 ^ 32) with 4294967296 in Hx.
  Z.to_euclidean_division_equations. lia.
Qed.

(** Masking bit 31 of a big-endian word only looks at the low 7 bits of
    its first octet. *)
Lemma be32_mod_2_31 b0 b1 b2 b3 :
  be32 b0 b1 b2 b3 mod 2 ^ 31 =
  (val b0 mod 128) * 2 ^ 24 + val b1 * 2 ^ 16 + val b2 * 2 ^ 8 + val b3.
Proof.
  unfold be32.
  pose proof (val_range b0); pose proof (val_range b1);
  pose proof (val_range b2); pose proof (val_range b3).
  change (2 ^ 31) with 2147483648. change (2 ^ 24) with 16777216.
  change (2 ^ 16) with 65536. change (2 ^ 8) with 256.
  Z.to_euclidean_division_equations. lia.
Qed.

End Facts.

(** ** Equations of [load] and [encode] *)
Module WUFacts.
Import Octets Buf Facts WU.

(** [load] on a 4-octet payload. *)
Lemma load_4 h b0 b1 b2 b3 :
  load h [b0; b1; b2; b3] =
  if be32 b0 b1 b2 b3 mod 2 ^ 31 =? 0 then Panic
  else Ok (mkWindowUpdate (Head.stream_id h) (be32 b0 b1 b2 b3 mod 2 ^ 31)).
Proof.
  unfold load. cbn [length Nat.eqb negb].
  rewrite unpack_octets_4_be32, land_not_mask. reflexivity.
Qed.

(** The octets [encode] appends. *)
Lemma encode_app w dst :
  encode w dst =
  dst ++ [Byte.x00; Byte.x00; Byte.x04; Byte.x08; Byte.x00]
      ++ be_bytes (stream_id w) 4 ++ be_bytes (size_increment w) 4.
Proof.
  unfold encode, Head.encode, Head.new, put_u32, put_u8, put_uint.
  rewrite <- !app_assoc. reflexivity.
Qed.

(** The value of a [u32] written by [put_u32]. *)
Lemma be_bytes_4_be32 x :
  0 <= x < 2 ^ 32 ->
  exists b0 b1 b2 b3, be_bytes x 4 = [b0; b1; b2; b3] /\ be32 b0 b1 b2 b3 = x.
Proof.
  intros Hx. rewrite be_bytes_4. do 4 eexists. split; [reflexivity|].
  apply be32_be_bytes. exact Hx.
Qed.

Lemma load_be_bytes h x :
  0 <= x < 2 ^ 32 ->
  load h (be_bytes x 4) =
  if x mod 2 ^ 31 =? 0 then Panic
  else Ok (mkWindowUpdate (Head.stream_id h) (x mod 2 ^ 31)).
Proof.
  intros Hx. destruct (be_bytes_4_be32 x Hx) as (b0 & b1 & b2 & b3 & -> & E).
  rewrite load_4, E. reflexivity.
Qed.

(** The head that [Head.parse] reads back from the 9 octets [encode]
    writes first. *)
Lemma parse_encoded_head sid :
  0 <= sid < 2 ^ 32 ->
  Head.parse ([Byte.x00; Byte.x00; Byte.x04; Byte.x08; Byte.x00] ++ be_bytes sid 4)
  = Some (Head.mkHead Head.WindowUpdate Byte.x00 (sid mod 2 ^ 31)).
Proof.
  intros Hs. destruct (be_bytes_4_be32 sid Hs) as (s0 & s1 & s2 & s3 & -> & E).
  unfold Head.parse, Head.stream_id_parse. cbn [app nth_error skipn].
  rewrite unpack_octets_4_be32, land_not_mask, E. reflexivity.
Qed.

(** Toggling the top bit of an octet keeps its low 7 bits. *)
Lemma flip_reserved_mod b :
  val (SpecTerms.flip_reserved b) mod 128 = val b mod 128.
Proof. destruct b; vm_compute; reflexivity. Qed.

Lemma val_clear_reserved b :
  val (of_Z (Z.land (val b) 127)) = val b mod 128.
Proof.
  rewrite val_of_Z. change 127 with (Z.ones 7).
  rewrite Z.land_ones by lia. change (2 ^ 7) with 128.
  pose proof (val_range b).
  Z.to_euclidean_division_equations. lia.
Qed.

Lemma load_Ok_length h p w :
  load h p = Ok w -> length p = 4%nat.
Proof.
  unfold load. destruct (length p =? 4)%nat eqn:E; cbn [negb].
  - intros _. apply Nat.eqb_eq. exact E.
  - discriminate.
Qed.

(** [put_u32] of a value below [2^31] read as four octets. *)
Lemma be_bytes_of_masked b0 b1 b2 b3 :
  be_bytes (be32 b0 b1 b2 b3 mod 2 ^ 31) 4 =
  SpecTerms.clear_reserved [b0; b1; b2; b3].
Proof.
  rewrite be_bytes_4, be32_mod_2_31. cbn [SpecTerms.clear_reserved].
  pose proof (val_range b0); pose proof (val_range b1);
  pose proof (val_range b2); pose proof (val_range b3).
  f_equal; [|f_equal; [|f_equal; [|f_equal]]]; apply val_inj;
    rewrite ?val_clear_reserved, val_byte_at by lia;
    change (2 ^ 24) with 16777216; change (2 ^ 16) with 65536;
    change (2 ^ 8) with 256; change (2 ^ 0) with 1;
    Z.to_euclidean_division_equations; lia.
Qed.

Lemma be_bytes_length_4 x : length (be_bytes x 4) = 4%nat.
Proof. reflexivity. Qed.

End WUFacts.

(** ** Properties of the WINDOW_UPDATE codec *)
Module WindowUpdateSpec.
Import Octets Buf Facts WU WUFacts.

(** Claim C1.  A 4-octet payload whose increment (bit 31 cleared) is 0
    makes [load] panic at its second [todo!()]: it returns no [Err]
    (the intended [Err(Error::InvalidWindowUpdateValue)] is commented
    out). *)
Theorem load_zero_increment_panics h b0 b1 b2 b3 :
  be32 b0 b1 b2 b3 mod 2 ^ 31 = 0 ->
  load h [b0; b1; b2; b3] = Panic.
Proof.
  intros Hz. rewrite load_4, Hz. reflexivity.
Qed.

Lemma load_zero_increment_panics_witness :
  be32 Byte.x00 Byte.x00 Byte.x00 Byte.x00 mod 2 ^ 31 = 0 /\
  load (Head.mkHead Head.WindowUpdate Byte.x00 1)
       [Byte.x00; Byte.x00; Byte.x00; Byte.x00] = Panic.
Proof.
  split; [reflexivity|].
  apply load_zero_increment_panics. reflexivity.
Defined.

(** Claim C2.  A payload whose length is not 4 makes [load] panic at its
    first [todo!()]: it returns no [Err] (the intended
    [Err(Error::BadFrameSize)] is commented out). *)
Theorem load_bad_length_panics h payload :
  length payload <> 4%nat ->
  load h payload = Panic.
Proof.
  intros Hlen. unfold load.
  rewrite (proj2 (Nat.eqb_neq _ _) Hlen). reflexivity.
Qed.

Lemma load_bad_length_panics_witness :
  length [Byte.x00; Byte.x01] <> 4%nat /\
  load (Head.mkHead Head.WindowUpdate Byte.x00 1) [Byte.x00; Byte.x01] = Panic.
Proof.
  split; [discriminate|].
  apply load_bad_length_panics. discriminate.
Defined.

(** Claim C3.  Round trip: for a stream id below [2^31] and an increment
    strictly between 0 and [2^31], splitting the octets written by
    [encode] (followed by any further octets) into head and payload and
    calling [load] gives back the same frame. *)
Theorem decode_encode_roundtrip sid inc rest :
  0 <= sid < 2 ^ 31 -> 0 < inc < 2 ^ 31 ->
  decode (encode (new sid inc) [] ++ rest) = Some (Ok (new sid inc)).
Proof.
  intros Hs Hi.
  unfold decode. rewrite encode_app. cbn [stream_id size_increment new].
  destruct (be_bytes_4_be32 sid) as (s0 & s1 & s2 & s3 & Es & Vs); [lia|].
  destruct (be_bytes_4_be32 inc) as (i0 & i1 & i2 & i3 & Ei & Vi); [lia|].
  rewrite Es, Ei. unfold Head.split_frame. cbn [app length firstn skipn].
  replace (Z.to_nat (val Byte.x00 * 2 ^ 16 + val Byte.x00 * 2 ^ 8 + val Byte.x04))
    with 4%nat by reflexivity.
  cbn [Nat.leb Nat.add firstn].
  unfold Head.parse, Head.stream_id_parse. cbn [nth_error skipn].
  rewrite unpack_octets_4_be32, land_not_mask, Vs, Z.mod_small by lia.
  rewrite load_4, Vi, Z.mod_small by lia.
  destruct (Z.eqb_spec inc 0); [lia|]. reflexivity.
Qed.

Lemma decode_encode_roundtrip_witness :
  (0 <= 1 < 2 ^ 31 /\ 0 < 16 < 2 ^ 31) /\
  decode (encode (new 1 16) [] ++ [Byte.x00]) = Some (Ok (new 1 16)).
Proof.
  split; [lia|].
  apply decode_encode_roundtrip; lia.
Defined.

(** Claim C5.  Scenario A: the 13 octets
    [00 00 04 08 00 00 00 00 01 00 00 00 10] decode to a WINDOW_UPDATE
    frame with stream id 1 and size increment 16. *)
Theorem decode_scenario_A :
  exists w,
    decode [Byte.x00; Byte.x00; Byte.x04; Byte.x08; Byte.x00; Byte.x00;
            Byte.x00; Byte.x00; Byte.x01; Byte.x00; Byte.x00; Byte.x00;
            Byte.x10] = Some (Ok w) /\
    stream_id w = 1 /\ size_increment w = 16.
Proof.
  exists (new 1 16). split; [vm_compute; reflexivity|]. split; reflexivity.
Qed.

(** Claim C4.  On a 4-octet payload, a frame produced by [load] has as
    size increment the big-endian value of the payload with bit 31
    cleared, and toggling bit 31 of the payload changes neither the
    result nor whether [load] succeeds. *)
Theorem load_increment_ignores_reserved_bit h b0 b1 b2 b3 :
  (forall w, load h [b0; b1; b2; b3] = Ok w ->
             size_increment w = be32 b0 b1 b2 b3 mod 2 ^ 31) /\
  load h [SpecTerms.flip_reserved b0; b1; b2; b3] = load h [b0; b1; b2; b3].
Proof.
  split.
  - intros w. rewrite load_4.
    destruct (be32 b0 b1 b2 b3 mod 2 ^ 31 =? 0); [discriminate|].
    intros E. injection E as <-. reflexivity.
  - rewrite !load_4, !be32_mod_2_31, flip_reserved_mod. reflexivity.
Qed.

(** Claim C6.  [encode] appends exactly 13 octets to [dst]: a 9-octet
    header (24-bit length 4, type WINDOW_UPDATE, flags 0, the stream id as
    a 32-bit big-endian word) and the size increment as a 32-bit
    big-endian word. *)
Theorem encode_appends_frame w dst :
  0 <= stream_id w < 2 ^ 32 -> 0 <= size_increment w < 2 ^ 32 ->
  exists l0 l1 l2 t f s0 s1 s2 s3 i0 i1 i2 i3,
    encode w dst = dst ++ [l0; l1; l2; t; f; s0; s1; s2; s3; i0; i1; i2; i3] /\
    val l0 * 2 ^ 16 + val l1 * 2 ^ 8 + val l2 = 4 /\
    Head.kind_new t = Head.WindowUpdate /\ val f = 0 /\
    be32 s0 s1 s2 s3 = stream_id w /\ be32 i0 i1 i2 i3 = size_increment w.
Proof.
  intros Hs Hi. rewrite encode_app.
  destruct (be_bytes_4_be32 _ Hs) as (s0 & s1 & s2 & s3 & -> & Vs).
  destruct (be_bytes_4_be32 _ Hi) as (i0 & i1 & i2 & i3 & -> & Vi).
  exists Byte.x00, Byte.x00, Byte.x04, Byte.x08, Byte.x00,
    s0, s1, s2, s3, i0, i1, i2, i3.
  repeat split; assumption.
Qed.

Lemma encode_appends_frame_witness :
  (0 <= stream_id (new 1 16) < 2 ^ 32 /\ 0 <= size_increment (new 1 16) < 2 ^ 32) /\
  exists l0 l1 l2 t f s0 s1 s2 s3 i0 i1 i2 i3,
    encode (new 1 16) [Byte.xff] =
      [Byte.xff] ++ [l0; l1; l2; t; f; s0; s1; s2; s3; i0; i1; i2; i3] /\
    val l0 * 2 ^ 16 + val l1 * 2 ^ 8 + val l2 = 4 /\
    Head.kind_new t = Head.WindowUpdate /\ val f = 0 /\
    be32 s0 s1 s2 s3 = stream_id (new 1 16) /\
    be32 i0 i1 i2 i3 = size_increment (new 1 16).
Proof.
  split; [cbn; lia|].
  apply encode_appends_frame; cbn; lia.
Defined.

(** Claim C8.  [new] does not validate: for every stream id and [u32]
    value [n] it builds the frame with exactly that id and increment, and
    [encode] writes [n] unmasked.  When [n] has no bits below 31 set
    (e.g. [n = 0]) [load] does not accept the written payload, and when
    bit 31 of [n] is set [load] never gives back increment [n]. *)
Theorem new_performs_no_validation sid n :
  0 <= n < 2 ^ 32 ->
  stream_id (new sid n) = sid /\ size_increment (new sid n) = n /\
  exists hdr b0 b1 b2 b3,
    encode (new sid n) [] = hdr ++ [b0; b1; b2; b3] /\ length hdr = 9%nat /\
    be32 b0 b1 b2 b3 = n /\
    (n mod 2 ^ 31 = 0 -> forall h, load h [b0; b1; b2; b3] = Panic) /\
    (2 ^ 31 <= n -> forall h w, load h [b0; b1; b2; b3] = Ok w ->
                               size_increment w <> n).
Proof.
  intros Hn. split; [reflexivity|]. split; [reflexivity|].
  rewrite encode_app. cbn [stream_id size_increment new].
  destruct (be_bytes_4_be32 _ Hn) as (b0 & b1 & b2 & b3 & -> & Vn).
  exists ([] ++ [Byte.x00; Byte.x00; Byte.x04; Byte.x08; Byte.x00]
            ++ be_bytes sid 4), b0, b1, b2, b3.
  split; [rewrite <- !app_assoc; reflexivity|].
  split; [rewrite !length_app, be_bytes_length_4; reflexivity|].
  split; [exact Vn|].
  split.
  - intros Hz h. rewrite load_4, Vn, Hz. reflexivity.
  - intros Hbig h w. rewrite load_4, Vn.
    destruct (n mod 2 ^ 31 =? 0); [discriminate|].
    intros E. injection E as <-. cbn [size_increment].
    Z.to_euclidean_division_equations. lia.
Qed.

Lemma new_performs_no_validation_witness :
  0 <= 0 < 2 ^ 32 /\
  stream_id (new 1 0) = 1 /\ size_increment (new 1 0) = 0 /\
  exists hdr b0 b1 b2 b3,
    encode (new 1 0) [] = hdr ++ [b0; b1; b2; b3] /\ length hdr = 9%nat /\
    be32 b0 b1 b2 b3 = 0 /\
    (0 mod 2 ^ 31 = 0 -> forall h, load h [b0; b1; b2; b3] = Panic) /\
    (2 ^ 31 <= 0 -> forall h w, load h [b0; b1; b2; b3] = Ok w ->
                               size_increment w <> 0).
Proof.
  split; [lia|].
  apply new_performs_no_validation. lia.
Defined.

(** Claim C9.  [load] reads nothing of the head but its stream id: two
    heads with the same stream id (whatever their kind and flags) give
    the same result on the same payload. *)
Theorem load_depends_on_stream_id_only h1 h2 payload :
  Head.stream_id h1 = Head.stream_id h2 ->
  load h1 payload = load h2 payload.
Proof.
  intros E. unfold load. rewrite E. reflexivity.
Qed.

Lemma load_depends_on_stream_id_only_witness :
  Head.stream_id (Head.mkHead Head.Data Byte.x01 7)
    = Head.stream_id (Head.mkHead Head.WindowUpdate Byte.x00 7) /\
  load (Head.mkHead Head.Data Byte.x01 7) [Byte.x80; Byte.x00; Byte.x00; Byte.x05]
    = load (Head.mkHead Head.WindowUpdate Byte.x00 7)
           [Byte.x80; Byte.x00; Byte.x00; Byte.x05].
Proof.
  split; [reflexivity|].
  apply load_depends_on_stream_id_only. reflexivity.
Defined.

(** Claim C10.  When [load] accepts a payload, the payload [encode] writes
    for the frame is the original payload with bit 31 cleared; decoding
    that encoding and encoding again writes the same payload octets. *)
Theorem encode_load_normalizes h payload w :
  load h payload = Ok w ->
  skipn 9 (encode w []) = SpecTerms.clear_reserved payload /\
  exists h' w',
    Head.split_frame (encode w []) = Some (h', skipn 9 (encode w [])) /\
    load h' (skipn 9 (encode w [])) = Ok w' /\
    skipn 9 (encode w' []) = skipn 9 (encode w []).
Proof.
  intros Hl.
  pose proof (load_Ok_length _ _ _ Hl) as Hlen.
  destruct payload as [|b0 [|b1 [|b2 [|b3 [|b4 r]]]]]; try discriminate Hlen.
  rewrite load_4 in Hl.
  remember (be32 b0 b1 b2 b3 mod 2 ^ 31) as v eqn:Ev.
  destruct (v =? 0) eqn:Ez; [discriminate|].
  injection Hl as <-.
  apply Z.eqb_neq in Ez.
  assert (Hv : 0 <= v < 2 ^ 31) by (rewrite Ev; apply Z.mod_pos_bound; lia).
  assert (Hp : forall w', size_increment w' = v ->
               skipn 9 (encode w' []) = be_bytes v 4).
  { intros w' Hw'. rewrite encode_app, Hw'. reflexivity. }
  rewrite (Hp (mkWindowUpdate (Head.stream_id h) v) eq_refl). split; [rewrite Ev; apply be_bytes_of_masked|].
  rewrite encode_app. cbn [stream_id size_increment].
  rewrite (be_bytes_4 (Head.stream_id h)).
  eexists. eexists. split; [reflexivity|].
  rewrite load_be_bytes by lia. rewrite Z.mod_small by lia.
  destruct (Z.eqb_spec v 0); [contradiction|].
  split; [reflexivity|].
  apply Hp. reflexivity.
Qed.

Lemma encode_load_normalizes_witness :
  load (Head.mkHead Head.WindowUpdate Byte.x00 1)
       [Byte.x80; Byte.x00; Byte.x00; Byte.x10]
    = Ok (new 1 16) /\
  skipn 9 (encode (new 1 16) []) =
    SpecTerms.clear_reserved [Byte.x80; Byte.x00; Byte.x00; Byte.x10] /\
  exists h' w',
    Head.split_frame (encode (new 1 16) []) = Some (h', skipn 9 (encode (new 1 16) [])) /\
    load h' (skipn 9 (encode (new 1 16) [])) = Ok w' /\
    skipn 9 (encode w' []) = skipn 9 (encode (new 1 16) []).
Proof.
  split; [vm_compute; reflexivity|].
  apply (encode_load_normalizes (Head.mkHead Head.WindowUpdate Byte.x00 1)
           [Byte.x80; Byte.x00; Byte.x00; Byte.x10]).
  vm_compute. reflexivity.
Defined.

End WindowUpdateSpec.

(** ** Further properties of [load] and [encode] *)
Module WindowUpdateMore.
Import Octets Buf Facts WU WUFacts.

Lemma be_bytes_4_inj x y :
  0 <= x < 2 ^ 32 -> 0 <= y < 2 ^ 32 -> be_bytes x 4 = be_bytes y 4 -> x = y.
Proof.
  intros Hx Hy E.
  rewrite <- (be32_be_bytes x Hx), <- (be32_be_bytes y Hy).
  rewrite !be_bytes_4 in E.
  pose proof (f_equal (fun l => nth 0 l Byte.x00) E) as E0.
  pose proof (f_equal (fun l => nth 1 l Byte.x00) E) as E1.
  pose proof (f_equal (fun l => nth 2 l Byte.x00) E) as E2.
  pose proof (f_equal (fun l => nth 3 l Byte.x00) E) as E3.
  cbn [nth] in E0, E1, E2, E3.
  rewrite E0, E1, E2, E3. reflexivity.
Qed.

(** [encode] only appends to [dst]: what is already in the buffer is kept,
    and encoding two frames in a row writes their encodings one after the
    other. *)
Theorem encode_appends_only w1 w2 dst :
  encode w1 dst = dst ++ encode w1 [] /\
  encode w2 (encode w1 dst) = dst ++ encode w1 [] ++ encode w2 [].
Proof.
  split; rewrite !encode_app; cbn [app]; rewrite <- ?app_assoc; reflexivity.
Qed.

(** [load] never returns [Err]: every failing path panics. *)
Theorem load_never_err h payload e :
  load h payload <> Err e.
Proof.
  unfold load.
  destruct (negb (length payload =? 4)%nat); [discriminate|].
  destruct (unpack_octets_4 payload 0) as [v|]; [|discriminate].
  destruct (Z.land v (u32_not SIZE_INCREMENT_MASK) =? 0); discriminate.
Qed.

(** [load] succeeds exactly on 4-octet payloads whose big-endian value with
    bit 31 cleared is non-zero, and then builds the frame from the head's
    stream id and that value. *)
Theorem load_Ok_iff h payload w :
  load h payload = Ok w <->
  exists b0 b1 b2 b3,
    payload = [b0; b1; b2; b3] /\ be32 b0 b1 b2 b3 mod 2 ^ 31 <> 0 /\
    w = new (Head.stream_id h) (be32 b0 b1 b2 b3 mod 2 ^ 31).
Proof.
  split.
  - intros Hl. pose proof (load_Ok_length _ _ _ Hl) as Hlen.
    destruct payload as [|b0 [|b1 [|b2 [|b3 [|b4 r]]]]]; try discriminate Hlen.
    rewrite load_4 in Hl.
    destruct (Z.eqb_spec (be32 b0 b1 b2 b3 mod 2 ^ 31) 0); [discriminate|].
    injection Hl as <-. exists b0, b1, b2, b3. auto.
  - intros (b0 & b1 & b2 & b3 & -> & Hz & ->).
    rewrite load_4. apply Z.eqb_neq in Hz. rewrite Hz. reflexivity.
Qed.

(** A frame produced by [load] carries the head's stream id and an
    increment strictly between 0 and [2^31]. *)
Theorem load_Ok_range h payload w :
  load h payload = Ok w ->
  stream_id w = Head.stream_id h /\ 0 < size_increment w < 2 ^ 31.
Proof.
  intros Hl. apply load_Ok_iff in Hl as (b0 & b1 & b2 & b3 & _ & Hz & ->).
  cbn [new stream_id size_increment]. split; [reflexivity|].
  pose proof (Z.mod_pos_bound (be32 b0 b1 b2 b3) (2 ^ 31) ltac:(lia)). lia.
Qed.

Lemma load_Ok_range_witness :
  load (Head.mkHead Head.WindowUpdate Byte.x00 3)
       [Byte.xff; Byte.xff; Byte.xff; Byte.xff] = Ok (new 3 (2 ^ 31 - 1)) /\
  stream_id (new 3 (2 ^ 31 - 1)) = 3 /\
  0 < size_increment (new 3 (2 ^ 31 - 1)) < 2 ^ 31.
Proof.
  assert (H : load (Head.mkHead Head.WindowUpdate Byte.x00 3)
                [Byte.xff; Byte.xff; Byte.xff; Byte.xff] = Ok (new 3 (2 ^ 31 - 1)))
    by (vm_compute; reflexivity).
  split; [exact H|]. apply (load_Ok_range _ _ _ H).
Defined.

(** [encode] is injective on frames whose stream id and increment are
    [u32] values: two such frames with the same encoding are equal. *)
Theorem encode_injective w1 w2 :
  0 <= stream_id w1 < 2 ^ 32 -> 0 <= size_increment w1 < 2 ^ 32 ->
  0 <= stream_id w2 < 2 ^ 32 -> 0 <= size_increment w2 < 2 ^ 32 ->
  encode w1 [] = encode w2 [] -> w1 = w2.
Proof.
  intros Hs1 Hi1 Hs2 Hi2 E. rewrite !encode_app in E.
  apply (f_equal (skipn 5)) in E. cbn [app skipn] in E.
  assert (Es : be_bytes (stream_id w1) 4 = be_bytes (stream_id w2) 4).
  { pose proof (f_equal (firstn 4) E) as F.
    rewrite (be_bytes_4 (stream_id w1)), (be_bytes_4 (stream_id w2)) in F |- *.
    rewrite (be_bytes_4 (size_increment w1)), (be_bytes_4 (size_increment w2)) in F.
    cbn [app firstn] in F. exact F. }
  assert (Ei : be_bytes (size_increment w1) 4 = be_bytes (size_increment w2) 4).
  { pose proof (f_equal (skipn 4) E) as F.
    rewrite (be_bytes_4 (stream_id w1)), (be_bytes_4 (stream_id w2)) in F.
    rewrite (be_bytes_4 (size_increment w1)), (be_bytes_4 (size_increment w2)) in F |- *.
    cbn [app skipn] in F. exact F. }
  apply be_bytes_4_inj in Es; [|assumption|assumption].
  apply be_bytes_4_inj in Ei; [|assumption|assumption].
  destruct w1, w2. cbn [stream_id size_increment] in *. subst. reflexivity.
Qed.

Lemma encode_injective_witness :
  (0 <= stream_id (new 1 16) < 2 ^ 32 /\ 0 <= size_increment (new 1 16) < 2 ^ 32 /\
   0 <= stream_id (new 1 16) < 2 ^ 32 /\ 0 <= size_increment (new 1 16) < 2 ^ 32 /\
   encode (new 1 16) [] = encode (new 1 16) []) /\
  new 1 16 = new 1 16.
Proof.
  split; [cbn; repeat split; lia|].
  apply encode_injective; cbn; try lia. reflexivity.
Defined.

(** Loading the 4 payload octets that [encode] wrote for a [u32] increment
    [n] gives back [n] with bit 31 cleared, under the stream id of the head
    passed to [load]; it panics when that value is 0. *)
Theorem load_encoded_payload h sid n :
  0 <= n < 2 ^ 32 ->
  load h (skipn 9 (encode (new sid n) [])) =
  if n mod 2 ^ 31 =? 0 then Panic
  else Ok (new (Head.stream_id h) (n mod 2 ^ 31)).
Proof.
  intros Hn. rewrite encode_app. cbn [app skipn stream_id size_increment new].
  rewrite (be_bytes_4 sid). cbn [app skipn].
  apply load_be_bytes. exact Hn.
Qed.

Lemma load_encoded_payload_witness :
  0 <= 2147483664 < 2 ^ 32 /\
  load (Head.mkHead Head.WindowUpdate Byte.x00 5)
       (skipn 9 (encode (new 5 2147483664) [])) =
  (if 2147483664 mod 2 ^ 31 =? 0 then Panic
   else Ok (new 5 (2147483664 mod 2 ^ 31))).
Proof.
  split; [lia|].
  apply (load_encoded_payload (Head.mkHead Head.WindowUpdate Byte.x00 5)). lia.
Defined.

End WindowUpdateMore.
